(** * A TFTP client: shallow embedding and verification

    The program is a single Python module: a TFTP client that downloads
    ([download_file]) or uploads ([upload_file]) one file over UDP.  The
    embedding follows the module top to bottom.

    - Python [bytes] are [list byte]; Python [int] is [Z]; [str] is [string].
      File names are taken to be ASCII, so that [len(filename)] is the length
      of the encoded name.
    - The socket is modelled by what it does: [sendto] appends a datagram to
      the log [sent] of the world, and each call of [recvfrom] consumes one
      [event] of a script (the inbox): a datagram with its source endpoint,
      or the expiry of the socket's timeout.
    - [print] appends a line to [stdout]; the file system is a finite map
      from file names to contents.
    - Exceptions are the [Raise] results of a state-and-exception monad [M].
    - The two [while True] loops recurse on the inbox.  A loop whose inbox is
      used up is [Waiting]: it is suspended in [recvfrom]. *)

From Stdlib Require Import ZArith Lia Strings.Byte DecimalString.
From stdpp Require Import base option list gmap strings.

Open Scope Z_scope.

(** ** Data *)

Abbreviation bytes := (list byte).

(** A socket address [(host, port)]. *)
Definition endpoint : Type := string * Z.

(** What one call of [sock.recvfrom] finds. *)
Inductive event :=
| Timeout
| Datagram (data : bytes) (src : endpoint).

Inductive exn :=
| struct_error
| socket_timeout
| FileNotFoundError
| SystemExit (code : Z).

Global Instance exn_eq_dec : EqDecision exn.
Proof. solve_decision. Defined.

Record world := World {
  sent : list (bytes * endpoint);
  stdout : list string;
  fs : gmap string bytes
}.

(** ** The monad of effects *)

Inductive result (A : Type) :=
| Ok (a : A)
| Raise (e : exn).
Arguments Ok {A} a.
Arguments Raise {A} e.

Definition M (A : Type) : Type := world → result A * world.

Global Instance M_ret : MRet M := λ A a w, (Ok a, w).
Global Instance M_bind : MBind M := λ A B k m w,
  match m w with
  | (Ok a, w') => k a w'
  | (Raise e, w') => (Raise e, w')
  end.

Definition raise {A} (e : exn) : M A := λ w, (Raise e, w).

(** [try: body except e: handler] *)
Definition try_except {A} (body : M A) (e : exn) (handler : M A) : M A := λ w,
  match body w with
  | (Raise e', w') => if decide (e' = e) then handler w' else (Raise e', w')
  | r => r
  end.

(** A pure computation that may fail with [struct.error]. *)
Definition struct_lift {A} (o : option A) : M A :=
  match o with
  | Some a => mret a
  | None => raise struct_error
  end.

Definition print (line : string) : M unit := λ w,
  (Ok tt, World (sent w) (stdout w ++ [line]) (fs w)).

Definition sendto (message : bytes) (address : endpoint) : M unit := λ w,
  (Ok tt, World (sent w ++ [(message, address)]) (stdout w) (fs w)).

(** [sock.recvfrom(bufsize)]: a datagram longer than the buffer is cut. *)
Definition recvfrom (bufsize : nat) (ev : event) : M (bytes * endpoint) :=
  match ev with
  | Timeout => raise socket_timeout
  | Datagram data src => mret (take bufsize data, src)
  end.

(** [open(filename, 'wb')]: the file is created, or emptied. *)
Definition open_wb (filename : string) : M unit := λ w,
  (Ok tt, World (sent w) (stdout w) (<[filename := []]> (fs w))).

(** [file.write(data)] on the handle of [filename]. *)
Definition file_write (filename : string) (data : bytes) : M unit := λ w,
  (Ok tt, World (sent w) (stdout w) (alter (λ c, c ++ data) filename (fs w))).

Definition os_remove (filename : string) : M unit := λ w,
  match fs w !! filename with
  | Some _ => (Ok tt, World (sent w) (stdout w) (delete filename (fs w)))
  | None => (Raise FileNotFoundError, w)
  end.

(** ** [struct.pack] and [struct.unpack] *)

Definition byte_of_Z (z : Z) : byte :=
  default "000"%byte (Byte.of_N (Z.to_N (z mod 256))).

Definition Z_of_byte (b : byte) : Z := Z.of_N (Byte.to_N b).

(** Format [h] under [>]: a signed 16-bit integer, big-endian; a value out of
    range raises [struct.error]. *)
Definition pack_h (v : Z) : option bytes :=
  if decide (-32768 ≤ v ≤ 32767)
  then Some [byte_of_Z (v mod 65536 / 256); byte_of_Z (v mod 65536)]
  else None.

Definition unpack_h (hi lo : byte) : Z :=
  let u := 256 * Z_of_byte hi + Z_of_byte lo in
  if decide (u < 32768) then u else u - 65536.

(** Format [B]: one unsigned byte. *)
Definition pack_B (v : Z) : option bytes :=
  if decide (0 ≤ v ≤ 255) then Some [byte_of_Z v] else None.

(** Format [<n>s]: exactly [n] bytes, cut or padded with zero bytes. *)
Definition pack_s (n : nat) (s : bytes) : bytes :=
  take n s ++ replicate (n - length s) "000"%byte.

(** [pack('>hh', a, b)] *)
Definition pack_hh (a b : Z) : option bytes :=
  x ← pack_h a; y ← pack_h b; Some (x ++ y).

(** [unpack('>hh', data)]: [data] must be exactly four bytes long. *)
Definition unpack_hh (data : bytes) : option (Z * Z) :=
  match data with
  | [a1; a0; b1; b0] => Some (unpack_h a1 a0, unpack_h b1 b0)
  | _ => None
  end.

(** [s.encode()] of an ASCII string. *)
Definition encode (s : string) : bytes := String.list_byte_of_string s.

(** [str(n)] *)
Definition str (n : Z) : string := NilZero.string_of_int (Z.to_int n).

(** ** Module constants *)

Definition DEFAULT_PORT : Z := 69.
Definition BLOCK_SIZE : Z := 512.
(** Seconds a receive waits; its expiry is the event [Timeout]. *)
Definition TIMEOUT : Z := 5.
Definition DEFAULT_TRANSFER_MODE : string := "octet".

Inductive opname := RRQ | WRQ | DATA | ACK | ERROR.

Definition OPCODE (k : opname) : Z :=
  match k with
  | RRQ => 1 | WRQ => 2 | DATA => 3 | ACK => 4 | ERROR => 5
  end.

Definition ERROR_CODE : gmap Z string :=
  list_to_map
    [ (0, "Not defined, see error message (if any).");
      (1, "File not found.");
      (2, "Access violation.");
      (3, "Disk full or allocation exceeded.");
      (4, "Illegal TFTP operation.");
      (5, "Unknown transfer ID.");
      (6, "File already exists.");
      (7, "No such user.") ]%string.

Definition unknown_error : string := "알 수 없는 오류".
Definition timeout_notice : string := "타임아웃: 응답이 없습니다. 재시도 중...".
Definition download_done : string := "파일 다운로드 완료.".
Definition upload_done : string := "파일 업로드 완료.".

(** ** Messages *)

(** [send_request], source lines 34-38. *)
Definition send_request (opcode : Z) (filename mode : string)
    (server_address : endpoint) : M unit :=
  message ← struct_lift (
    a ← pack_h opcode;
    z1 ← pack_B 0;
    z2 ← pack_B 0;
    Some (a ++ pack_s (String.length filename) (encode filename) ++ z1
            ++ pack_s (String.length mode) (encode mode) ++ z2));
  sendto message server_address.

(** [send_ack], source lines 40-43. *)
Definition send_ack (block_num : Z) (server_address : endpoint) : M unit :=
  ack_message ← struct_lift (pack_hh (OPCODE ACK) block_num);
  sendto ack_message server_address.

(** [send_data], source lines 45-48. *)
Definition send_data (block_num : Z) (data_block : bytes)
    (server_address : endpoint) : M unit :=
  header ← struct_lift (pack_hh (OPCODE DATA) block_num);
  sendto (header ++ data_block) server_address.

(** [receive_data], source lines 50-61.  It returns a 4-tuple; [None] stands for the tuple
    [(None, None, None, None)] of the timeout branch. *)
Definition receive_data (ev : event) (expected_block_num : Z)
    : M (option (Z * Z * bytes * endpoint)) :=
  try_except
    ('(data, server) ← recvfrom 516 ev;
     '(opcode, block_num) ← struct_lift (unpack_hh (take 4 data));
     let file_data := drop 4 data in
     mret (Some (opcode, block_num, file_data, server)))
    socket_timeout
    (print timeout_notice;; mret None).

(** ** The download loop *)

(** How an iteration of a transfer loop ends: at the end of the body (the
    loop goes on), at the [break] after the last block, or at the [break] of
    the error branch.  Each carries the block counter. *)
Inductive control :=
| Continue (block : Z)
| BreakComplete (block : Z)
| BreakError (block : Z).

(** One pass through the body of [while True] in [download_file], source
    lines 70-85. *)
Definition download_iter (filename : string) (ev : event)
    (expected_block_num : Z) : M control :=
  r ← receive_data ev expected_block_num;
  match r with
  | Some (opcode, block_num, file_data, server) =>
      if decide (opcode = OPCODE DATA ∧ block_num = expected_block_num) then
        file_write filename file_data;;
        send_ack block_num server;;
        let expected_block_num := expected_block_num + 1 in
        if decide (Z.of_nat (length file_data) < BLOCK_SIZE) then
          print download_done;;
          mret (BreakComplete expected_block_num)
        else mret (Continue expected_block_num)
      else if decide (opcode = OPCODE ERROR) then
        print (default unknown_error (ERROR_CODE !! block_num));;
        os_remove filename;;
        mret (BreakError expected_block_num)
      else mret (Continue expected_block_num)
  | None => mret (Continue expected_block_num)
  end.

(** Where a transfer stands when its events are used up or it has stopped. *)
Inductive status :=
| Completed          (* left by the break after the last block *)
| Aborted            (* left by the break of the error branch *)
| Raised (e : exn)   (* an exception left the function *)
| Waiting.           (* suspended in recvfrom: the inbox is used up *)

Global Instance status_eq_dec : EqDecision status.
Proof. solve_decision. Defined.

(** The loop [while True] of [download_file], source line 69: one
    [download_iter] for each event of the inbox, until a [break] or an
    exception. *)
Fixpoint download_loop (filename : string) (inbox : list event)
    (expected_block_num : Z) (w : world) : status * Z * world :=
  match inbox with
  | [] => (Waiting, expected_block_num, w)
  | ev :: inbox' =>
      match download_iter filename ev expected_block_num w with
      | (Ok (Continue n), w') => download_loop filename inbox' n w'
      | (Ok (BreakComplete n), w') => (Completed, n, w')
      | (Ok (BreakError n), w') => (Aborted, n, w')
      | (Raise e, w') => (Raised e, expected_block_num, w')
      end
  end.

(** [download_file], source lines 63-68: the request, the opening of the
    file, the loop from block 1. *)
Definition download_file (filename : string) (server_address : endpoint)
    (inbox : list event) (w : world) : status * world :=
  match send_request (OPCODE RRQ) filename DEFAULT_TRANSFER_MODE
          server_address w with
  | (Raise e, w1) => (Raised e, w1)
  | (Ok _, w1) =>
      let w2 := (open_wb filename w1).2 in
      let '(st, _, w3) := download_loop filename inbox 1 w2 in
      (st, w3)
  end.

(** ** The upload loop *)

(** The [try] statement in the body of the loop of [upload_file], source
    lines 100-112;
    [data_block] is the chunk sent just before. *)
Definition upload_reply (ev : event) (block_num : Z) (data_block : bytes)
    : M control :=
  try_except
    (r ← receive_data ev block_num;
     match r with
     | Some (opcode, ack_block_num, _, _) =>
         if decide (opcode = OPCODE ACK ∧ ack_block_num = block_num) then
           let block_num := block_num + 1 in
           if decide (Z.of_nat (length data_block) < BLOCK_SIZE) then
             print upload_done;;
             mret (BreakComplete block_num)
           else mret (Continue block_num)
         else mret (Continue block_num)
     | None => mret (Continue block_num)
     end)
    socket_timeout
    (print ("타임아웃: 블록 " +:+ str block_num +:+ " 재전송.");;
     mret (Continue block_num)).

(** The loop [while True] of [upload_file], source lines 97-112.
    [file] is what the handle has not read yet: [file.read(BLOCK_SIZE)]
    returns its first 512 bytes and moves past them. *)
Fixpoint upload_loop (server_address : endpoint) (inbox : list event)
    (file : bytes) (block_num : Z) (w : world) : status * Z * world :=
  let data_block := take (Z.to_nat BLOCK_SIZE) file in
  let file := drop (Z.to_nat BLOCK_SIZE) file in
  match send_data block_num data_block server_address w with
  | (Raise e, w1) => (Raised e, block_num, w1)
  | (Ok _, w1) =>
      match inbox with
      | [] => (Waiting, block_num, w1)
      | ev :: inbox' =>
          match upload_reply ev block_num data_block w1 with
          | (Ok (Continue n), w2) =>
              upload_loop server_address inbox' file n w2
          | (Ok (BreakComplete n), w2) => (Completed, n, w2)
          | (Ok (BreakError n), w2) => (Aborted, n, w2)
          | (Raise e, w2) => (Raised e, block_num, w2)
          end
      end
  end.

(** [upload_file], source lines 87-96: the check that the file exists, the
    request, the loop from block 1. *)
Definition upload_file (filename : string) (server_address : endpoint)
    (inbox : list event) (w : world) : status * world :=
  match fs w !! filename with
  | None =>
      let w1 := (print ("파일 " +:+ filename +:+ "이(가) 존재하지 않습니다.") w).2 in
      (Raised (SystemExit 1), w1)
  | Some content =>
      match send_request (OPCODE WRQ) filename DEFAULT_TRANSFER_MODE
              server_address w with
      | (Raise e, w1) => (Raised e, w1)
      | (Ok _, w1) =>
          let '(st, _, w2) := upload_loop server_address inbox content 1 w1 in
          (st, w2)
      end
  end.

(** ** Vocabulary of the statements *)

(** The header fields [receive_data] reads off a datagram, when it has four
    bytes to read, and the payload it returns with them. *)
Definition header (data : bytes) : option (Z * Z) := unpack_hh (take 4 data).
Definition payload (data : bytes) : bytes := drop 4 (take 516 data).

Definition payload_of (ev : event) : bytes :=
  match ev with
  | Datagram data _ => payload data
  | Timeout => []
  end.

(** A 16-bit field, big-endian, as it is on the wire, and its unsigned
    reading. *)
Definition u16 (n : Z) : bytes := [byte_of_Z (n / 256); byte_of_Z n].

Definition unsigned16 (field : bytes) : option Z :=
  match field with
  | [hi; lo] => Some (256 * Z_of_byte hi + Z_of_byte lo)
  | _ => None
  end.

(** The wire forms of the five messages. *)
Definition request_msg (opcode : Z) (filename : string) : bytes :=
  u16 opcode ++ encode filename ++ ["000"%byte]
    ++ encode DEFAULT_TRANSFER_MODE ++ ["000"%byte].
Definition DATA_msg (n : Z) (data : bytes) : bytes := u16 3 ++ u16 n ++ data.
Definition ACK_msg (n : Z) : bytes := u16 4 ++ u16 n.
Definition ERROR_msg (code : Z) (text : string) : bytes :=
  u16 5 ++ u16 code ++ encode text ++ ["000"%byte].

(** [acc] are DATA datagrams numbered [n], [n + 1], ... in this order. *)
Fixpoint consecutive_data (n : Z) (acc : list event) : Prop :=
  match acc with
  | [] => True
  | Timeout :: _ => False
  | Datagram data _ :: acc' =>
      header data = Some (OPCODE DATA, n) ∧ consecutive_data (n + 1) acc'
  end.

(** The acknowledgements of [acc], each addressed to the source of the
    datagram it answers. *)
Fixpoint acks_from (n : Z) (acc : list event) : list (bytes * endpoint) :=
  match acc with
  | [] => []
  | Timeout :: acc' => acks_from n acc'
  | Datagram _ src :: acc' => (ACK_msg n, src) :: acks_from (n + 1) acc'
  end.

Definition written (acc : list event) : bytes := concat (payload_of <$> acc).

Definition full (ev : event) : Prop := length (payload_of ev) = 512%nat.
Definition short (ev : event) : Prop := (length (payload_of ev) < 512)%nat.

(** Every datagram of the inbox has the four bytes of a header. *)
Definition headed (ev : event) : Prop :=
  match ev with
  | Datagram data _ => (4 ≤ length data)%nat
  | Timeout => True
  end.

(** The world of a download once the request is out and the destination
    file is open. *)
Definition started (filename : string) (server_address : endpoint)
    (w : world) : world :=
  World (sent w ++ [(request_msg (OPCODE RRQ) filename, server_address)])
    (stdout w) (<[filename := []]> (fs w)).

(** [acks] are ACK datagrams numbered [n], [n + 1], ... in this order. *)
Fixpoint consecutive_acks (n : Z) (acks : list event) : Prop :=
  match acks with
  | [] => True
  | Timeout :: _ => False
  | Datagram data _ :: acks' =>
      header data = Some (OPCODE ACK, n) ∧ consecutive_acks (n + 1) acks'
  end.

(** The first [k] chunks that successive [file.read(512)] return. *)
Fixpoint chunks (k : nat) (file : bytes) : list bytes :=
  match k with
  | O => []
  | S k' => take 512 file :: chunks k' (drop 512 file)
  end.

(** The DATA messages of [blocks], numbered from [n], as sent to [address]. *)
Fixpoint numbered (n : Z) (blocks : list bytes) (address : endpoint)
    : list (bytes * endpoint) :=
  match blocks with
  | [] => []
  | block :: blocks' =>
      (DATA_msg n block, address) :: numbered (n + 1) blocks' address
  end.

(** Messages on the wire arriving as datagrams from [src]. *)
Definition arriving (src : endpoint) (msgs : list (bytes * endpoint))
    : list event :=
  (λ m, Datagram m.1 src) <$> msgs.

(** The line [upload_file] would print from its own timeout handler. *)
Definition retransmit_notice (block_num : Z) : string :=
  "타임아웃: 블록 " +:+ str block_num +:+ " 재전송.".

(** ** Test data *)

Definition server : endpoint := ("192.0.2.1"%string, 69).
Definition tid : endpoint := ("192.0.2.1"%string, 40000).
Definition stranger : endpoint := ("203.0.113.9"%string, 7777).
Definition w0 : world := World [] [] ∅.

Definition As (n : nat) : bytes := replicate n "a"%byte.
Definition Bs (n : nat) : bytes := replicate n "b"%byte.

(** A world whose only file, [name], holds [content]. *)
Definition holding (name : string) (content : bytes) : world :=
  World [] [] {[ name := content ]}.

(** * Properties *)

(** ** [struct] *)

Lemma Z_of_byte_range b : 0 ≤ Z_of_byte b ≤ 255.
Proof.
  unfold Z_of_byte. pose proof (Byte.to_N_bounded b). lia.
Qed.

Lemma Z_of_byte_of_Z z : Z_of_byte (byte_of_Z z) = z mod 256.
Proof.
  unfold Z_of_byte, byte_of_Z.
  assert (Hr : 0 ≤ z mod 256 < 256) by (apply Z.mod_pos_bound; lia).
  destruct (Byte.of_N (Z.to_N (z mod 256))) as [b|] eqn:Hb.
  - apply Byte.to_of_N in Hb. simpl. rewrite Hb. lia.
  - apply Byte.of_N_None_iff in Hb. lia.
Qed.

Lemma byte_of_Z_mod z : byte_of_Z (z mod 256) = byte_of_Z z.
Proof. unfold byte_of_Z. by rewrite Z.mod_mod. Qed.

Lemma byte_of_Z_of_byte b : byte_of_Z (Z_of_byte b) = b.
Proof.
  unfold byte_of_Z. pose proof (Z_of_byte_range b).
  rewrite Z.mod_small by lia. unfold Z_of_byte.
  by rewrite N2Z.id, Byte.of_to_N.
Qed.

Lemma unpack_h_range hi lo : -32768 ≤ unpack_h hi lo ≤ 32767.
Proof.
  unfold unpack_h.
  pose proof (Z_of_byte_range hi). pose proof (Z_of_byte_range lo).
  case_decide; lia.
Qed.

Lemma pack_h_u16 v : -32768 ≤ v ≤ 32767 → pack_h v = Some (u16 v).
Proof.
  intros Hv. unfold pack_h, u16. rewrite decide_True by done.
  do 2 f_equal.
  - rewrite <- (byte_of_Z_mod (v / 256)), <- (byte_of_Z_mod (v mod 65536 / 256)).
    f_equal. Z.div_mod_to_equations. lia.
  - f_equal. rewrite <- (byte_of_Z_mod v), <- (byte_of_Z_mod (v mod 65536)).
    f_equal. Z.div_mod_to_equations. lia.
Qed.

Lemma pack_h_out_of_range v : 32767 < v → pack_h v = None.
Proof. intros Hv. unfold pack_h. rewrite decide_False; [done | lia]. Qed.

Lemma unsigned16_u16 n : unsigned16 (u16 n) = Some (n mod 65536).
Proof.
  unfold unsigned16, u16. rewrite !Z_of_byte_of_Z. f_equal.
  Z.div_mod_to_equations. lia.
Qed.

Lemma header_range data op b :
  header data = Some (op, b) → -32768 ≤ b ≤ 32767.
Proof.
  unfold header, unpack_hh. intros H.
  destruct (take 4 data) as [|a1 [|a0 [|b1 [|b0 [|? ?]]]]]; try done.
  injection H as _ <-. apply unpack_h_range.
Qed.

Lemma header_length data : is_Some (header data) ↔ (4 ≤ length data)%nat.
Proof.
  unfold header, unpack_hh.
  destruct data as [|a1 [|a0 [|b1 [|b0 rest]]]]; simpl;
    rewrite ?take_0; split; intros H; try (by destruct H); try lia; eauto.
Qed.

Lemma payload_length data : (length (payload data) ≤ 512)%nat.
Proof.
  unfold payload. rewrite length_drop, length_take. lia.
Qed.

(** ** Sending *)

Lemma length_encode s : length (encode s) = String.length s.
Proof.
  unfold encode, String.list_byte_of_string.
  rewrite length_map. induction s as [|a s IH]; simpl; congruence.
Qed.

Lemma pack_s_exact s : pack_s (String.length s) (encode s) = encode s.
Proof.
  unfold pack_s. rewrite <- length_encode, Nat.sub_diag, firstn_all.
  apply app_nil_r.
Qed.

Lemma send_request_ok opcode filename server_address w :
  -32768 ≤ opcode ≤ 32767 →
  send_request opcode filename DEFAULT_TRANSFER_MODE server_address w
  = (Ok tt, World (sent w ++ [(request_msg opcode filename, server_address)])
              (stdout w) (fs w)).
Proof.
  intros Hop. unfold send_request, mbind, M_bind.
  rewrite (pack_h_u16 _ Hop). simpl. unfold sendto, request_msg.
  by rewrite pack_s_exact.
Qed.

Lemma send_ack_ok block_num server_address w :
  -32768 ≤ block_num ≤ 32767 →
  send_ack block_num server_address w
  = (Ok tt, World (sent w ++ [(ACK_msg block_num, server_address)])
              (stdout w) (fs w)).
Proof.
  intros Hb. unfold send_ack, pack_hh, mbind, M_bind.
  rewrite (pack_h_u16 (OPCODE ACK)) by (simpl; lia).
  by rewrite (pack_h_u16 _ Hb).
Qed.

Lemma send_data_ok block_num data_block server_address w :
  -32768 ≤ block_num ≤ 32767 →
  send_data block_num data_block server_address w
  = (Ok tt, World (sent w ++ [(DATA_msg block_num data_block, server_address)])
              (stdout w) (fs w)).
Proof.
  intros Hb. unfold send_data, pack_hh, mbind, M_bind.
  rewrite (pack_h_u16 (OPCODE DATA)) by (simpl; lia).
  by rewrite (pack_h_u16 _ Hb).
Qed.

Lemma send_data_overflow block_num data_block server_address w :
  32767 < block_num →
  send_data block_num data_block server_address w = (Raise struct_error, w).
Proof.
  intros Hb. unfold send_data, pack_hh, mbind, M_bind.
  rewrite (pack_h_u16 (OPCODE DATA)) by (simpl; lia).
  by rewrite (pack_h_out_of_range _ Hb).
Qed.

Lemma send_ack_overflow block_num server_address w :
  32767 < block_num →
  send_ack block_num server_address w = (Raise struct_error, w).
Proof.
  intros Hb. unfold send_ack, pack_hh, mbind, M_bind.
  rewrite (pack_h_u16 (OPCODE ACK)) by (simpl; lia).
  by rewrite (pack_h_out_of_range _ Hb).
Qed.

(** ** Receiving *)

Lemma take_4_take_516 (data : bytes) : take 4 (take 516 data) = take 4 data.
Proof. rewrite take_take. f_equal. Qed.

Lemma receive_data_timeout n w :
  receive_data Timeout n w
  = (Ok None, World (sent w) (stdout w ++ [timeout_notice]) (fs w)).
Proof. reflexivity. Qed.

Lemma receive_data_headed data src n w op b :
  header data = Some (op, b) →
  receive_data (Datagram data src) n w
  = (Ok (Some (op, b, payload data, src)), w).
Proof.
  unfold header. intros H.
  unfold receive_data, try_except, recvfrom, mbind, M_bind, mret, M_ret.
  rewrite take_4_take_516, H. reflexivity.
Qed.

Lemma receive_data_headless data src n w :
  header data = None →
  receive_data (Datagram data src) n w = (Raise struct_error, w).
Proof.
  unfold header. intros H.
  unfold receive_data, try_except, recvfrom, mbind, M_bind, mret, M_ret.
  rewrite take_4_take_516, H. reflexivity.
Qed.

(** ** One iteration of the download loop, case by case *)

Lemma download_iter_timeout filename n w :
  download_iter filename Timeout n w
  = (Ok (Continue n), World (sent w) (stdout w ++ [timeout_notice]) (fs w)).
Proof. reflexivity. Qed.

Lemma download_iter_headless filename data src n w :
  header data = None →
  download_iter filename (Datagram data src) n w = (Raise struct_error, w).
Proof.
  intros H. unfold download_iter, mbind, M_bind.
  by rewrite (receive_data_headless _ _ _ _ H).
Qed.

Lemma download_iter_data filename data src n w :
  header data = Some (OPCODE DATA, n) →
  download_iter filename (Datagram data src) n w
  = if decide (Z.of_nat (length (payload data)) < BLOCK_SIZE)
    then (Ok (BreakComplete (n + 1)),
          World (sent w ++ [(ACK_msg n, src)]) (stdout w ++ [download_done])
            (alter (λ c, c ++ payload data) filename (fs w)))
    else (Ok (Continue (n + 1)),
          World (sent w ++ [(ACK_msg n, src)]) (stdout w)
            (alter (λ c, c ++ payload data) filename (fs w))).
Proof.
  intros H. pose proof (header_range _ _ _ H) as Hn.
  unfold download_iter, mbind at 1, M_bind at 1.
  rewrite (receive_data_headed _ _ _ _ _ _ H).
  rewrite decide_True by done.
  unfold mbind, M_bind, file_write.
  rewrite send_ack_ok by done. simpl.
  case_decide; reflexivity.
Qed.

Lemma download_iter_error filename data src n w code :
  header data = Some (OPCODE ERROR, code) →
  is_Some (fs w !! filename) →
  download_iter filename (Datagram data src) n w
  = (Ok (BreakError n),
     World (sent w)
       (stdout w ++ [default unknown_error (ERROR_CODE !! code)])
       (delete filename (fs w))).
Proof.
  intros H [c Hc]. unfold download_iter, mbind at 1, M_bind at 1.
  rewrite (receive_data_headed _ _ _ _ _ _ H).
  rewrite decide_False by (simpl; intros [? _]; lia).
  rewrite decide_True by done.
  unfold mbind, M_bind, print, os_remove. simpl. by rewrite Hc.
Qed.

Lemma download_iter_discard filename data src n w op b :
  header data = Some (op, b) →
  op ≠ OPCODE ERROR →
  ¬ (op = OPCODE DATA ∧ b = n) →
  download_iter filename (Datagram data src) n w = (Ok (Continue n), w).
Proof.
  intros H Hop Hb. unfold download_iter, mbind at 1, M_bind at 1.
  rewrite (receive_data_headed _ _ _ _ _ _ H).
  by rewrite !decide_False.
Qed.

(** ** The download loop as a whole *)

(** The loop unfolded once, with the monad run: the body of [while True]
    in direct style. *)
Lemma download_loop_cons filename ev inbox n w :
  is_Some (fs w !! filename) →
  download_loop filename (ev :: inbox) n w
  = match ev with
    | Timeout =>
        download_loop filename inbox n
          (World (sent w) (stdout w ++ [timeout_notice]) (fs w))
    | Datagram data src =>
        match header data with
        | None => (Raised struct_error, n, w)
        | Some (op, b) =>
            if decide (op = OPCODE DATA ∧ b = n) then
              let fs' := alter (λ c, c ++ payload data) filename (fs w) in
              let sent' := sent w ++ [(ACK_msg n, src)] in
              if decide (Z.of_nat (length (payload data)) < BLOCK_SIZE)
              then (Completed, n + 1,
                    World sent' (stdout w ++ [download_done]) fs')
              else download_loop filename inbox (n + 1)
                     (World sent' (stdout w) fs')
            else if decide (op = OPCODE ERROR) then
              (Aborted, n,
               World (sent w)
                 (stdout w ++ [default unknown_error (ERROR_CODE !! b)])
                 (delete filename (fs w)))
            else download_loop filename inbox n w
        end
    end.
Proof.
  intros Hfile. destruct ev as [|data src]; [reflexivity|].
  cbn [download_loop].
  destruct (header data) as [[op b]|] eqn:Hh.
  - destruct (decide (op = OPCODE DATA ∧ b = n)) as [[-> ->]|Hne].
    + rewrite (download_iter_data _ _ _ _ _ Hh). by case_decide.
    + destruct (decide (op = OPCODE ERROR)) as [->|Hop].
      * by rewrite (download_iter_error _ _ _ _ _ _ Hh Hfile).
      * by rewrite (download_iter_discard _ _ _ _ _ _ _ Hh Hop Hne).
  - by rewrite (download_iter_headless _ _ _ _ _ Hh).
Qed.

(** Events after the loop has stopped are not looked at; a loop that is
    still waiting takes up the next events where it stands. *)
Lemma download_loop_app filename pre inbox : ∀ n w,
  download_loop filename (pre ++ inbox) n w
  = match download_loop filename pre n w with
    | (Waiting, n', w') => download_loop filename inbox n' w'
    | r => r
    end.
Proof.
  induction pre as [|ev pre IH]; intros n w; [reflexivity|].
  simpl. destruct (download_iter filename ev n w) as [[[k|k|k]|e] w1]; auto.
Qed.

(** What a run of the loop has done, in terms of the datagrams [acc] it
    accepted: they arrive in this order, carry consecutive block numbers
    from the counter on, each is acknowledged to its own source, and their
    payloads are what the file gained. *)
Lemma download_loop_trace filename inbox : ∀ n w st n' w' c,
  download_loop filename inbox n w = (st, n', w') →
  fs w !! filename = Some c →
  ∃ acc,
    acc `sublist_of` inbox ∧
    consecutive_data n acc ∧
    sent w' = sent w ++ acks_from n acc ∧
    (st ≠ Aborted → fs w' !! filename = Some (c ++ written acc)) ∧
    (st = Aborted → fs w' !! filename = None) ∧
    (st = Completed →
       ∃ init last, acc = init ++ [last] ∧ Forall full init ∧ short last) ∧
    (st ≠ Completed → Forall full acc).
Proof.
  induction inbox as [|ev inbox IH]; intros n w st n' w' c Hrun Hfile.
  { injection Hrun as <- <- <-. exists []. unfold written. simpl.
    rewrite !app_nil_r. repeat split; try done. }
  rewrite download_loop_cons in Hrun by eauto.
  destruct ev as [|data src].
  { destruct (IH _ _ _ _ _ c Hrun Hfile) as (acc & Hsub & Hrest).
    exists acc. split; [by apply sublist_cons | exact Hrest]. }
  destruct (header data) as [[op b]|] eqn:Hh.
  2:{ injection Hrun as <- <- <-. exists []. unfold written. simpl.
      rewrite !app_nil_r. repeat split; try done. apply sublist_nil_l. }
  destruct (decide (op = OPCODE DATA ∧ b = n)) as [[-> ->]|Hne].
  - cbv zeta in Hrun. pose proof (payload_length data) as Hlen.
    destruct (decide (Z.of_nat (length (payload data)) < BLOCK_SIZE))
      as [Hshort|Hfull]; unfold BLOCK_SIZE in *.
    + injection Hrun as <- <- <-. exists [Datagram data src].
      unfold written. simpl. rewrite app_nil_r.
      repeat split; try done.
      * apply sublist_skip, sublist_nil_l.
      * intros _. by rewrite lookup_alter_eq, Hfile.
      * intros _. exists [], (Datagram data src).
        repeat split; [constructor|]. unfold short. simpl. lia.
    + assert (Hfile' : fs (World (sent w ++ [(ACK_msg n, src)]) (stdout w)
         (alter (λ c, c ++ payload data) filename (fs w))) !! filename
         = Some (c ++ payload data)).
      { simpl. by rewrite lookup_alter_eq, Hfile. }
      destruct (IH _ _ _ _ _ _ Hrun Hfile')
        as (acc & Hsub & Hcons & Hsent & Hkeep & Hgone & Hdone & Hgoing).
      exists (Datagram data src :: acc). unfold written in *. simpl in *.
      repeat split; try done.
      * by apply sublist_skip.
      * by rewrite Hsent, <- app_assoc.
      * intros Hst. by rewrite (Hkeep Hst), <- app_assoc.
      * intros Hst. destruct (Hdone Hst) as (init & last & -> & Hinit & Hlast).
        exists (Datagram data src :: init), last.
        repeat split; [|done]. constructor; [|done]. unfold full. simpl. lia.
      * intros Hst. constructor; [|by apply Hgoing]. unfold full. simpl. lia.
  - destruct (decide (op = OPCODE ERROR)) as [->|Hop].
    + injection Hrun as <- <- <-. exists []. simpl.
      rewrite !app_nil_r. repeat split; try done.
      * apply sublist_nil_l.
      * intros _. apply lookup_delete_eq.
    + destruct (IH _ _ _ _ _ c Hrun Hfile) as (acc & Hsub & Hrest).
      exists acc. split; [by apply sublist_cons | exact Hrest].
Qed.

(** The loop raises only on a datagram too short to hold a header. *)
Lemma download_loop_no_raise filename inbox : ∀ n w,
  Forall headed inbox →
  is_Some (fs w !! filename) →
  ∀ e, (download_loop filename inbox n w).1.1 ≠ Raised e.
Proof.
  induction inbox as [|ev inbox IH]; intros n w Hall Hfile e; [done|].
  apply Forall_cons in Hall as [Hev Hall].
  rewrite download_loop_cons by done.
  destruct ev as [|data src]; [by apply IH|].
  destruct (header data) as [[op b]|] eqn:Hh.
  2:{ apply header_length in Hev as [? ?]. congruence. }
  repeat case_decide; try done; apply IH; try done.
  simpl. rewrite lookup_alter_eq. destruct Hfile as [c ->]. by eexists.
Qed.

(** ** [download_file] *)

Lemma download_file_started filename server_address inbox w :
  download_file filename server_address inbox w
  = let '(st, _, w') :=
      download_loop filename inbox 1 (started filename server_address w) in
    (st, w').
Proof.
  unfold download_file. rewrite send_request_ok by (simpl; lia). reflexivity.
Qed.

Lemma started_file filename server_address w :
  fs (started filename server_address w) !! filename = Some [].
Proof. apply lookup_insert_eq. Qed.

(** A download that is still waiting has its destination file. *)
Lemma download_waiting_file filename server_address inbox w w1 :
  download_file filename server_address inbox w = (Waiting, w1) →
  is_Some (fs w1 !! filename).
Proof.
  rewrite download_file_started.
  destruct (download_loop _ _ _ _) as [[st n] w'] eqn:Hrun.
  intros [= -> ->].
  destruct (download_loop_trace _ _ _ _ _ _ _ _ Hrun (started_file _ _ _))
    as (acc & _ & _ & _ & Hkeep & _).
  rewrite Hkeep by done. by eexists.
Qed.

(** An ERROR datagram reaching a download in progress. *)
Lemma download_file_error filename server_address pre data src rest w w1 code :
  download_file filename server_address pre w = (Waiting, w1) →
  header data = Some (OPCODE ERROR, code) →
  download_file filename server_address (pre ++ Datagram data src :: rest) w
  = (Aborted,
     World (sent w1)
       (stdout w1 ++ [default unknown_error (ERROR_CODE !! code)])
       (delete filename (fs w1))).
Proof.
  intros Hpre Hh. pose proof (download_waiting_file _ _ _ _ _ Hpre) as Hfile.
  revert Hpre. rewrite !download_file_started, download_loop_app.
  destruct (download_loop _ pre _ _) as [[st n] w'].
  intros [= -> ->].
  rewrite download_loop_cons, Hh by done.
  rewrite decide_False by (simpl; intros [? _]; lia).
  by rewrite decide_True.
Qed.

Lemma ERROR_CODE_unknown code : ¬ 0 ≤ code ≤ 7 → ERROR_CODE !! code = None.
Proof.
  intros Hcode. unfold ERROR_CODE. simpl.
  rewrite !lookup_insert_ne by lia. apply lookup_empty.
Qed.

(** ** The upload loop *)

Lemma send_data_cases block_num data_block server_address w :
  send_data block_num data_block server_address w = (Raise struct_error, w)
  ∨ send_data block_num data_block server_address w
    = (Ok tt, World (sent w ++ [(DATA_msg block_num data_block, server_address)])
                (stdout w) (fs w)).
Proof.
  destruct (decide (-32768 ≤ block_num ≤ 32767)) as [Hb|Hb].
  - right. by apply send_data_ok.
  - left. unfold send_data, pack_hh, mbind, M_bind.
    rewrite (pack_h_u16 (OPCODE DATA)) by (simpl; lia).
    unfold pack_h. by rewrite (decide_False _ _ Hb).
Qed.

Lemma upload_reply_timeout block_num data_block w :
  upload_reply Timeout block_num data_block w
  = (Ok (Continue block_num),
     World (sent w) (stdout w ++ [timeout_notice]) (fs w)).
Proof. reflexivity. Qed.

Lemma upload_reply_headless data src block_num data_block w :
  header data = None →
  upload_reply (Datagram data src) block_num data_block w
  = (Raise struct_error, w).
Proof.
  intros Hh. unfold upload_reply, try_except, mbind, M_bind.
  by rewrite (receive_data_headless _ _ _ _ Hh).
Qed.

Lemma upload_reply_headed data src block_num data_block w op b :
  header data = Some (op, b) →
  upload_reply (Datagram data src) block_num data_block w
  = if decide (op = OPCODE ACK ∧ b = block_num) then
      if decide (Z.of_nat (length data_block) < BLOCK_SIZE)
      then (Ok (BreakComplete (block_num + 1)),
            World (sent w) (stdout w ++ [upload_done]) (fs w))
      else (Ok (Continue (block_num + 1)), w)
    else (Ok (Continue block_num), w).
Proof.
  intros Hh. unfold upload_reply, try_except, mbind, M_bind.
  rewrite (receive_data_headed _ _ _ _ _ _ Hh).
  repeat case_decide; reflexivity.
Qed.

(** The reply handler sends nothing and leaves the files alone; what it
    does with a datagram does not depend on where the datagram is from. *)
Lemma upload_reply_quiet ev block_num data_block w r w' :
  upload_reply ev block_num data_block w = (r, w') →
  sent w' = sent w ∧ fs w' = fs w.
Proof.
  destruct ev as [|data src].
  - rewrite upload_reply_timeout. by intros [= <- <-].
  - destruct (header data) as [[op b]|] eqn:Hh.
    + rewrite (upload_reply_headed _ _ _ _ _ _ _ Hh).
      repeat case_decide; by intros [= <- <-].
    + rewrite (upload_reply_headless _ _ _ _ _ Hh). by intros [= <- <-].
Qed.

Lemma upload_reply_any_source data src src' block_num data_block w :
  upload_reply (Datagram data src) block_num data_block w
  = upload_reply (Datagram data src') block_num data_block w.
Proof.
  destruct (header data) as [[op b]|] eqn:Hh.
  - by rewrite !(upload_reply_headed _ _ _ _ _ _ _ Hh).
  - by rewrite !(upload_reply_headless _ _ _ _ _ Hh).
Qed.

(** The loop unfolded once, in direct style.  The chunk is read at the top
    of every pass; whatever the reply, the next pass reads on from
    [drop 512 file]. *)
Lemma upload_loop_cons server_address ev inbox file block_num w :
  -32768 ≤ block_num ≤ 32767 →
  upload_loop server_address (ev :: inbox) file block_num w
  = let data_block := take 512 file in
    let file' := drop 512 file in
    let sent' := sent w ++ [(DATA_msg block_num data_block, server_address)] in
    match ev with
    | Timeout =>
        upload_loop server_address inbox file' block_num
          (World sent' (stdout w ++ [timeout_notice]) (fs w))
    | Datagram data src =>
        match header data with
        | None => (Raised struct_error, block_num, World sent' (stdout w) (fs w))
        | Some (op, b) =>
            if decide (op = OPCODE ACK ∧ b = block_num) then
              if decide (Z.of_nat (length data_block) < BLOCK_SIZE)
              then (Completed, block_num + 1,
                    World sent' (stdout w ++ [upload_done]) (fs w))
              else upload_loop server_address inbox file' (block_num + 1)
                     (World sent' (stdout w) (fs w))
            else upload_loop server_address inbox file' block_num
                   (World sent' (stdout w) (fs w))
        end
    end.
Proof.
  intros Hb. cbn [upload_loop]. rewrite send_data_ok by done.
  change (Z.to_nat BLOCK_SIZE) with 512%nat. cbv zeta.
  destruct ev as [|data src]; [reflexivity|].
  destruct (header data) as [[op b]|] eqn:Hh.
  - rewrite (upload_reply_headed _ _ _ _ _ _ _ Hh).
    repeat case_decide; reflexivity.
  - by rewrite (upload_reply_headless _ _ _ _ _ Hh).
Qed.

(** Every datagram an upload loop sends goes to the address it was given. *)
Lemma upload_loop_sent server_address inbox : ∀ file block_num w st n' w',
  upload_loop server_address inbox file block_num w = (st, n', w') →
  ∃ new, sent w' = sent w ++ new ∧ Forall (λ m, m.2 = server_address) new.
Proof.
  induction inbox as [|ev inbox IH]; intros file n w st n' w' Hrun;
    cbn [upload_loop] in Hrun;
    destruct (send_data_cases n (take (Z.to_nat BLOCK_SIZE) file)
                server_address w) as [Hs|Hs];
    rewrite Hs in Hrun.
  - injection Hrun as <- <- <-. exists []. by rewrite app_nil_r.
  - injection Hrun as <- <- <-. eexists [_]. split; [done|].
    by repeat constructor.
  - injection Hrun as <- <- <-. exists []. by rewrite app_nil_r.
  - destruct (upload_reply _ _ _ _) as [r w2] eqn:Hr.
    apply upload_reply_quiet in Hr as [Hsent _]. simpl in Hsent.
    destruct r as [[k|k|k]|e].
    + apply IH in Hrun as (new & Hnew & Hall). rewrite Hsent in Hnew.
      eexists (_ :: new). rewrite Hnew, <- app_assoc. split; [done|].
      by constructor.
    + injection Hrun as <- <- <-. eexists [_]. split; [done|].
      by repeat constructor.
    + injection Hrun as <- <- <-. eexists [_]. split; [done|].
      by repeat constructor.
    + injection Hrun as <- <- <-. eexists [_]. split; [done|].
      by repeat constructor.
Qed.

Lemma download_loop_timeouts filename k : ∀ n w,
  download_loop filename (replicate k Timeout) n w
  = (Waiting, n,
     World (sent w) (stdout w ++ replicate k timeout_notice) (fs w)).
Proof.
  induction k as [|k IH]; intros n w; simpl.
  - rewrite app_nil_r. by destruct w.
  - rewrite IH. simpl. by rewrite <- app_assoc.
Qed.

Lemma download_iter_error_missing filename data src n w code :
  header data = Some (OPCODE ERROR, code) →
  fs w !! filename = None →
  download_iter filename (Datagram data src) n w
  = (Raise FileNotFoundError,
     World (sent w)
       (stdout w ++ [default unknown_error (ERROR_CODE !! code)]) (fs w)).
Proof.
  intros H Hc. unfold download_iter, mbind at 1, M_bind at 1.
  rewrite (receive_data_headed _ _ _ _ _ _ H).
  rewrite decide_False by (simpl; intros [? _]; lia).
  rewrite decide_True by done.
  unfold mbind, M_bind, print, os_remove. simpl. by rewrite Hc.
Qed.

(** Which way an iteration of the download loop ends does not depend on
    where the datagram comes from. *)
Lemma download_iter_any_source filename data src src' n w :
  (download_iter filename (Datagram data src) n w).1
  = (download_iter filename (Datagram data src') n w).1.
Proof.
  destruct (header data) as [[op b]|] eqn:Hh.
  - destruct (decide (op = OPCODE DATA ∧ b = n)) as [[-> ->]|Hne].
    + rewrite !(download_iter_data _ _ _ _ _ Hh). by case_decide.
    + destruct (decide (op = OPCODE ERROR)) as [->|Hop].
      * destruct (fs w !! filename) as [c|] eqn:Hfile.
        -- by rewrite !(download_iter_error _ _ _ _ _ _ Hh) by eauto.
        -- by rewrite !(download_iter_error_missing _ _ _ _ _ _ Hh Hfile).
      * by rewrite !(download_iter_discard _ _ _ _ _ _ _ Hh Hop Hne).
  - by rewrite !(download_iter_headless _ _ _ _ _ Hh).
Qed.

(** * The claims *)

(** ** Upload: what follows a timeout *)

(** C1 (the code departs from the claim).  The claim: after a timeout the
    client retransmits the same Data message, with the same payload bytes,
    and reads nothing more from the file before the block is acknowledged.
    The run below uploads a file of 512 bytes [a] followed by 88 bytes [b]
    and meets one timeout: the second Data message for block 1 carries the
    88 bytes [b], the next chunk of the file, not the 512 bytes [a]. *)
Theorem upload_timeout_sends_next_chunk :
  let r := upload_file "f" server [Timeout] (holding "f" (As 512 ++ Bs 88)) in
  r.1 = Waiting ∧
  sent r.2 = [ (request_msg 2 "f", server);
               (DATA_msg 1 (As 512), server);
               (DATA_msg 1 (Bs 88), server) ] ∧
  stdout r.2 = [timeout_notice].
Proof. vm_compute. repeat split; reflexivity. Qed.

(** ** Upload: an Error reply *)

(** C4 (the code departs from the claim).  The claim: an Error reply stops
    the upload, its code translated to a message, and no Data is sent after
    it.  In the run below the server answers block 1 with Error 2: the
    upload goes on, nothing is printed, and another Data message is sent. *)
Theorem upload_error_reply_ignored :
  let reply := Datagram (ERROR_msg 2 "Access violation.") tid in
  let r := upload_file "f" server [reply] (holding "f" (As 512 ++ Bs 88)) in
  r.1 = Waiting ∧
  sent r.2 = [ (request_msg 2 "f", server);
               (DATA_msg 1 (As 512), server);
               (DATA_msg 1 (Bs 88), server) ] ∧
  stdout r.2 = [].
Proof. vm_compute. repeat split; reflexivity. Qed.

(** ** Download: a timeout *)

(** C2, as stated, fails: a download that meets a timeout has not ended in
    failure.  Here the first receive times out and block 1 arrives
    afterwards: the download completes and the file holds the block. *)
Lemma download_completes_after_timeout :
  let inbox := [Timeout; Datagram (DATA_msg 1 (Bs 3)) tid] in
  let r := download_file "f" server inbox w0 in
  r.1 = Completed ∧
  fs r.2 !! "f"%string = Some (Bs 3) ∧
  stdout r.2 = [timeout_notice; download_done].
Proof. vm_compute. repeat split; reflexivity. Qed.

(** C2 (amended).  When a receive of a download times out, the transfer does
    not end: a notice is printed, nothing is sent (the request is not
    repeated) or written, and the loop receives again with the same expected
    block; after any number of timeouts in a row the download is still
    waiting, the request sent once and the file empty. *)
Theorem download_timeout_waits_again
    (filename : string) (server_address : endpoint) (inbox : list event)
    (n : Z) (w : world) (k : nat) :
  download_loop filename (Timeout :: inbox) n w
  = download_loop filename inbox n
      (World (sent w) (stdout w ++ [timeout_notice]) (fs w))
  ∧ download_file filename server_address (replicate k Timeout) w
    = (Waiting,
       World (sent w ++ [(request_msg 1 filename, server_address)])
         (stdout w ++ replicate k timeout_notice)
         (<[filename := []]> (fs w))).
Proof.
  split; [reflexivity|].
  by rewrite download_file_started, download_loop_timeouts.
Qed.

(** ** The peer endpoint *)

(** C3, as stated, fails.  Download: block 1 comes from one endpoint and
    block 2 from another; block 2 is written and acknowledged to the second
    endpoint.  Upload: the first acknowledgement comes from the server's
    transfer port, and the next Data still goes to the initial address. *)
Lemma transfer_not_locked_to_first_endpoint :
  let inbox := [ Datagram (DATA_msg 1 (As 512)) tid;
                 Datagram (DATA_msg 2 (Bs 3)) stranger ] in
  let r := download_file "f" server inbox w0 in
  let u := upload_file "f" server [Datagram (ACK_msg 1) tid]
             (holding "f" (As 512 ++ Bs 88)) in
  (r.1 = Completed ∧
   fs r.2 !! "f"%string = Some (As 512 ++ Bs 3) ∧
   sent r.2 = [ (request_msg 1 "f", server);
                (ACK_msg 1, tid);
                (ACK_msg 2, stranger) ]) ∧
  sent u.2 = [ (request_msg 2 "f", server);
               (DATA_msg 1 (As 512), server);
               (DATA_msg 2 (Bs 88), server) ].
Proof. vm_compute. repeat split; reflexivity. Qed.

(** C3 (amended).  No endpoint is locked.  In a download, a DATA datagram
    with the expected block number is written and acknowledged whatever its
    source, and the acknowledgement goes to the source of that datagram.  In
    an upload, every datagram is sent to the server address given at the
    start, and a reply is treated the same whatever its source. *)
Theorem transfers_do_not_lock_endpoint
    (filename : string) (server_address : endpoint)
    (data : bytes) (src src' : endpoint) (inbox : list event)
    (file data_block : bytes) (n : Z) (w : world) :
  (header data = Some (OPCODE DATA, n) →
     let w' := (download_iter filename (Datagram data src) n w).2 in
     sent w' = sent w ++ [(ACK_msg n, src)] ∧
     fs w' = alter (λ c, c ++ payload data) filename (fs w))
  ∧ (∀ st n' w',
       upload_loop server_address inbox file n w = (st, n', w') →
       ∃ new, sent w' = sent w ++ new
              ∧ Forall (λ m, m.2 = server_address) new)
  ∧ upload_reply (Datagram data src) n data_block w
    = upload_reply (Datagram data src') n data_block w.
Proof.
  split; [|split].
  - intros Hh. rewrite (download_iter_data _ _ _ _ _ Hh). by case_decide.
  - intros st n' w'. apply upload_loop_sent.
  - apply upload_reply_any_source.
Qed.

Lemma transfers_do_not_lock_endpoint_witness :
  header (DATA_msg 2 (Bs 3)) = Some (OPCODE DATA, 2) ∧
  sent (download_iter "f" (Datagram (DATA_msg 2 (Bs 3)) stranger) 2 w0).2
  = sent w0 ++ [(ACK_msg 2, stranger)].
Proof.
  split; [reflexivity|].
  apply (transfers_do_not_lock_endpoint "f" server (DATA_msg 2 (Bs 3))
           stranger tid [] [] [] 2 w0).
  reflexivity.
Defined.

(** ** Download: the file and the accepted blocks *)

(** C5.  Whatever a download receives, the datagrams it accepted are DATA
    datagrams of the inbox in their order of arrival, numbered 1, 2, 3, ...
    without gap or repetition, each acknowledged; every accepted payload
    but the last has 512 bytes.  The download completes exactly when an
    accepted payload is shorter than 512 bytes (that block is the last),
    and then the file holds the accepted payloads one after the other.  In
    particular a 512-byte block 1 leaves the download waiting, and the empty
    block 2 after it completes the download, with a file of 512 bytes. *)
Theorem download_writes_accepted_blocks :
  (∀ (filename : string) (server_address : endpoint) (inbox : list event)
     (w : world) (st : status) (w' : world),
     download_file filename server_address inbox w = (st, w') →
     ∃ acc,
       acc `sublist_of` inbox ∧
       consecutive_data 1 acc ∧
       sent w' = sent w ++ (request_msg 1 filename, server_address)
                            :: acks_from 1 acc ∧
       (st = Completed →
          fs w' !! filename = Some (written acc) ∧
          ∃ init last, acc = init ++ [last] ∧ Forall full init ∧ short last) ∧
       (st ≠ Completed → Forall full acc))
  ∧ (let one := Datagram (DATA_msg 1 (As 512)) tid in
     let two := Datagram (DATA_msg 2 []) tid in
     (download_file "f" server [one] w0).1 = Waiting ∧
     (download_file "f" server [one; two] w0).1 = Completed ∧
     fs (download_file "f" server [one; two] w0).2 !! "f"%string
     = Some (As 512)).
Proof.
  split; [|by vm_compute].
  intros filename server_address inbox w st w'.
  rewrite download_file_started.
  destruct (download_loop _ _ _ _) as [[st1 n1] w1] eqn:Hrun.
  intros [= -> ->].
  destruct (download_loop_trace _ _ _ _ _ _ _ _ Hrun (started_file _ _ _))
    as (acc & Hsub & Hcons & Hsent & Hkeep & _ & Hdone & Hgoing).
  exists acc. repeat split; try done.
  - rewrite Hsent. simpl. by rewrite <- app_assoc.
  - subst st. by rewrite Hkeep.
  - by apply Hdone.
Qed.

Lemma download_writes_accepted_blocks_witness :
  let inbox := [ Datagram (DATA_msg 1 (As 512)) tid;
                 Datagram (DATA_msg 2 (Bs 488)) tid ] in
  let r := download_file "report.txt" server inbox w0 in
  r.1 = Completed ∧
  ∃ acc, acc `sublist_of` inbox ∧ consecutive_data 1 acc ∧
         fs r.2 !! "report.txt"%string = Some (written acc).
Proof.
  intros inbox r.
  assert (Hst : r.1 = Completed) by (by vm_compute).
  split; [exact Hst|].
  destruct (proj1 download_writes_accepted_blocks "report.txt" server inbox
              w0 r.1 r.2) as (acc & Hsub & Hcons & _ & Hdone & _).
  { apply surjective_pairing. }
  exists acc. repeat split; try done. by destruct (Hdone Hst).
Defined.

(** ** Download: a duplicate block *)

(** C6, as stated, fails: block 1 arrives twice, and only one
    acknowledgement is sent. *)
Lemma duplicate_data_not_acknowledged_again :
  let one := Datagram (DATA_msg 1 (As 512)) tid in
  let r := download_file "f" server [one; one] w0 in
  r.1 = Waiting ∧
  sent r.2 = [(request_msg 1 "f", server); (ACK_msg 1, tid)] ∧
  fs r.2 !! "f"%string = Some (As 512).
Proof. vm_compute. repeat split; reflexivity. Qed.

(** C6 (amended).  A DATA datagram whose block number is below the expected
    one is ignored: its payload is not appended to the file, no
    acknowledgement is sent, and the loop goes on to the next receive. *)
Theorem duplicate_data_ignored
    (filename : string) (data : bytes) (src : endpoint)
    (inbox : list event) (n b : Z) (w : world) :
  header data = Some (OPCODE DATA, b) →
  b < n →
  download_iter filename (Datagram data src) n w = (Ok (Continue n), w)
  ∧ download_loop filename (Datagram data src :: inbox) n w
    = download_loop filename inbox n w.
Proof.
  intros Hh Hb.
  assert (Hiter : download_iter filename (Datagram data src) n w
                  = (Ok (Continue n), w)).
  { apply (download_iter_discard _ _ _ _ _ _ _ Hh); [done|]. lia. }
  split; [exact Hiter|]. cbn [download_loop]. by rewrite Hiter.
Qed.

Lemma duplicate_data_ignored_witness :
  header (DATA_msg 1 (As 512)) = Some (OPCODE DATA, 1) ∧ 1 < 2 ∧
  download_iter "f" (Datagram (DATA_msg 1 (As 512)) tid) 2 w0
  = (Ok (Continue 2), w0).
Proof.
  split; [reflexivity|]. split; [lia|].
  apply (duplicate_data_ignored "f" (DATA_msg 1 (As 512)) tid [] 2 1 w0);
    [reflexivity | lia].
Defined.

(** ** Download: datagrams that do not fit *)

(** C7, as stated, fails.  A datagram from another endpoint than the one
    that sent block 1 is not discarded when it carries the expected block
    number: it is written and acknowledged.  And a datagram of two bytes
    raises [struct.error]. *)
Lemma stranger_accepted_and_short_datagram_raises :
  let inbox := [ Datagram (DATA_msg 1 (As 512)) tid;
                 Datagram (DATA_msg 2 (Bs 512)) stranger ] in
  let r := download_file "f" server inbox w0 in
  (r.1 = Waiting ∧
   fs r.2 !! "f"%string = Some (As 512 ++ Bs 512) ∧
   sent r.2 = [ (request_msg 1 "f", server);
                (ACK_msg 1, tid);
                (ACK_msg 2, stranger) ]) ∧
  (download_file "f" server [Datagram (u16 3) tid] w0).1
  = Raised struct_error.
Proof. vm_compute. repeat split; reflexivity. Qed.

(** C7 (amended).  In a download, a datagram of at least four bytes whose
    opcode is not ERROR and which is not the DATA of the expected block
    (wrong block number, or wrong opcode) is discarded: nothing is raised,
    written, sent or printed, and the loop goes on to the next receive.  A
    download that only receives datagrams of at least four bytes never
    raises.  The source endpoint is not examined: whether a datagram is
    accepted, discarded or ends the loop is the same whatever its source. *)
Theorem mismatched_datagram_discarded
    (filename : string) (server_address : endpoint) (data : bytes)
    (src : endpoint) (inbox : list event) (n op b : Z) (w : world) :
  (header data = Some (op, b) →
   op ≠ OPCODE ERROR →
   ¬ (op = OPCODE DATA ∧ b = n) →
   download_iter filename (Datagram data src) n w = (Ok (Continue n), w)
   ∧ download_loop filename (Datagram data src :: inbox) n w
     = download_loop filename inbox n w)
  ∧ (Forall headed inbox →
     ∀ e, (download_file filename server_address inbox w).1 ≠ Raised e)
  ∧ (∀ src', (download_iter filename (Datagram data src) n w).1
             = (download_iter filename (Datagram data src') n w).1).
Proof.
  split; [|split; [|intros src'; apply download_iter_any_source]].
  - intros Hh Hop Hb.
    pose proof (download_iter_discard filename _ src _ w _ _ Hh Hop Hb) as Hi.
    split; [exact Hi|]. cbn [download_loop]. by rewrite Hi.
  - intros Hall e. rewrite download_file_started.
    assert (Hfile : is_Some (fs (started filename server_address w)
                               !! filename)).
    { rewrite started_file. by eexists. }
    pose proof (download_loop_no_raise filename inbox 1 _ Hall Hfile e) as Hno.
    by destruct (download_loop _ _ _ _) as [[st n1] w1].
Qed.

Lemma mismatched_datagram_discarded_witness :
  header (ACK_msg 7) = Some (4, 7) ∧ 4 ≠ OPCODE ERROR ∧
  download_iter "f" (Datagram (ACK_msg 7) stranger) 1 w0
  = (Ok (Continue 1), w0).
Proof.
  split; [reflexivity|]. split; [by vm_compute|].
  apply (mismatched_datagram_discarded "f" server (ACK_msg 7) stranger
           [] 1 4 7 w0); [reflexivity | by vm_compute |].
  intros [H _]. by vm_compute in H.
Defined.

(** ** Block numbers on the wire *)

(** C8, as stated, fails: the message for block 65536 is not encoded with
    the field 0, and the message for block 32768 is not encoded at all;
    packing raises [struct.error] and nothing is sent. *)
Lemma blocks_32768_and_65536_not_sent :
  (send_data 65536 (Bs 3) server w0 = (Raise struct_error, w0) ∧
   send_ack 65536 server w0 = (Raise struct_error, w0)) ∧
  (send_data 32768 (Bs 3) server w0 = (Raise struct_error, w0) ∧
   send_ack 32768 server w0 = (Raise struct_error, w0)).
Proof. by vm_compute. Qed.

(** C8 (amended).  Block numbers in DATA and ACK messages are 16-bit
    big-endian fields.  For every block index n from 1 to 32767 the message
    for block n is encoded and sent, its field reading n, which is n mod
    65536, as an unsigned 16-bit integer.  The block counter is not reduced
    modulo 65536: for n from 65536 on, nothing is encoded or sent. *)
Theorem block_number_encoding
    (n : Z) (data_block : bytes) (server_address : endpoint) (w : world) :
  (1 ≤ n ≤ 32767 →
   send_data n data_block server_address w
   = (Ok tt, World (sent w ++ [(u16 3 ++ u16 n ++ data_block, server_address)])
               (stdout w) (fs w))
   ∧ send_ack n server_address w
     = (Ok tt, World (sent w ++ [(u16 4 ++ u16 n, server_address)])
                 (stdout w) (fs w))
   ∧ unsigned16 (u16 n) = Some (n mod 65536)
   ∧ n mod 65536 = n)
  ∧ (65536 ≤ n →
     send_data n data_block server_address w = (Raise struct_error, w)
     ∧ send_ack n server_address w = (Raise struct_error, w)).
Proof.
  split.
  - intros Hn. split; [|split; [|split]].
    + apply send_data_ok. lia.
    + apply send_ack_ok. lia.
    + apply unsigned16_u16.
    + apply Z.mod_small. lia.
  - intros Hn. split.
    + apply send_data_overflow. lia.
    + apply send_ack_overflow. lia.
Qed.

Lemma block_number_encoding_witness :
  1 ≤ 300 ≤ 32767 ∧
  send_ack 300 tid w0
  = (Ok tt, World [(u16 4 ++ u16 300, tid)] [] ∅) ∧
  unsigned16 (u16 300) = Some 300.
Proof.
  split; [lia|].
  destruct (proj1 (block_number_encoding 300 [] tid w0))
    as (_ & Hack & Hfield & _); [lia|].
  split; [exact Hack | exact Hfield].
Defined.

(** ** Download: an Error message *)

(** C9.  When a download in progress receives an ERROR message, the transfer
    stops in failure and the destination file is removed; with error code 1
    the line printed is "File not found.", and with a code outside 0..7 it is
    the generic line for an unknown error. *)
Theorem download_error_translated
    (filename : string) (server_address : endpoint) (pre : list event)
    (data : bytes) (src : endpoint) (rest : list event)
    (w w1 : world) (code : Z) :
  download_file filename server_address pre w = (Waiting, w1) →
  header data = Some (OPCODE ERROR, code) →
  let r := download_file filename server_address
             (pre ++ Datagram data src :: rest) w in
  r.1 = Aborted ∧
  fs r.2 !! filename = None ∧
  (code = 1 → stdout r.2 = stdout w1 ++ ["File not found."%string]) ∧
  (¬ 0 ≤ code ≤ 7 → stdout r.2 = stdout w1 ++ [unknown_error]).
Proof.
  intros Hpre Hh r. subst r.
  rewrite (download_file_error _ _ _ _ _ _ _ _ _ Hpre Hh). simpl.
  repeat split.
  - apply lookup_delete_eq.
  - by intros ->.
  - intros Hcode. by rewrite ERROR_CODE_unknown.
Qed.

Lemma download_error_translated_witness :
  let pre := [Datagram (DATA_msg 1 (As 512)) tid] in
  let data := ERROR_msg 1 "File not found" in
  let r := download_file "f" server (pre ++ [Datagram data tid]) w0 in
  (download_file "f" server pre w0).1 = Waiting ∧
  header data = Some (OPCODE ERROR, 1) ∧
  r.1 = Aborted ∧ fs r.2 !! "f"%string = None ∧
  stdout r.2 = ["File not found."%string].
Proof.
  intros pre data r.
  split; [reflexivity|]. split; [reflexivity|].
  destruct (download_error_translated "f" server pre data tid [] w0
              (download_file "f" server pre w0).2 1)
    as (Hst & Hfile & Hone & _); [reflexivity | reflexivity |].
  split; [exact Hst|]. split; [exact Hfile|]. by apply Hone.
Defined.

(** C10.  In a download, a datagram whose opcode field reads ERROR ends the
    loop and deletes the destination file, whichever endpoint it comes from
    and whatever block is expected: no acknowledgement is sent and what
    would arrive afterwards is not received.  So one datagram from any
    endpoint aborts a download in progress and removes the partial file. *)
Theorem any_error_datagram_aborts_download
    (filename : string) (server_address : endpoint) (pre : list event)
    (data : bytes) (src : endpoint) (rest : list event)
    (w w1 : world) (n code : Z) :
  header data = Some (OPCODE ERROR, code) →
  (∀ w2, is_Some (fs w2 !! filename) →
     ∃ w3, download_loop filename (Datagram data src :: rest) n w2
           = (Aborted, n, w3)
           ∧ fs w3 !! filename = None ∧ sent w3 = sent w2)
  ∧ (download_file filename server_address pre w = (Waiting, w1) →
     ∃ w3, download_file filename server_address
             (pre ++ Datagram data src :: rest) w = (Aborted, w3)
           ∧ fs w3 !! filename = None ∧ sent w3 = sent w1).
Proof.
  intros Hh. split.
  - intros w2 Hfile. rewrite download_loop_cons, Hh by done.
    rewrite decide_False by (simpl; intros [? _]; lia).
    rewrite decide_True by done.
    eexists. split; [reflexivity|]. split; [apply lookup_delete_eq | done].
  - intros Hpre. rewrite (download_file_error _ _ _ _ _ _ _ _ _ Hpre Hh).
    eexists. split; [reflexivity|]. split; [apply lookup_delete_eq | done].
Qed.

Lemma any_error_datagram_aborts_download_witness :
  let pre := [Datagram (DATA_msg 1 (As 512)) tid] in
  let data := ERROR_msg 0 "bye" in
  header data = Some (OPCODE ERROR, 0) ∧
  (download_file "f" server pre w0).1 = Waiting ∧
  ∃ w3, download_file "f" server (pre ++ [Datagram data stranger]) w0
        = (Aborted, w3)
        ∧ fs w3 !! "f"%string = None.
Proof.
  intros pre data.
  split; [reflexivity|]. split; [reflexivity|].
  destruct (proj2 (any_error_datagram_aborts_download "f" server pre data
              stranger [] w0 (download_file "f" server pre w0).2 2 0
              eq_refl) eq_refl) as (w3 & Hrun & Hfile & _).
  exists w3. split; [exact Hrun | exact Hfile].
Defined.

(** * Further properties of the code *)

(** ** Headers and messages: round trips *)

Lemma unpack_h_u16 v :
  -32768 ≤ v ≤ 32767 → unpack_h (byte_of_Z (v / 256)) (byte_of_Z v) = v.
Proof.
  intros Hv. unfold unpack_h. rewrite !Z_of_byte_of_Z.
  case_decide; Z.div_mod_to_equations; lia.
Qed.

Lemma header_DATA_msg n data :
  -32768 ≤ n ≤ 32767 → header (DATA_msg n data) = Some (OPCODE DATA, n).
Proof.
  intros Hn. unfold header, DATA_msg. simpl.
  by rewrite (unpack_h_u16 3), (unpack_h_u16 n) by lia.
Qed.

Lemma payload_DATA_msg n data : payload (DATA_msg n data) = take 512 data.
Proof. reflexivity. Qed.

Lemma send_data_Ok block_num data_block address w w' :
  send_data block_num data_block address w = (Ok tt, w') →
  -32768 ≤ block_num ≤ 32767.
Proof.
  intros H. destruct (decide (-32768 ≤ block_num ≤ 32767)) as [Hb|Hb]; [done|].
  revert H. unfold send_data, pack_hh, mbind, M_bind.
  rewrite (pack_h_u16 (OPCODE DATA)) by (simpl; lia).
  unfold pack_h. by rewrite (decide_False _ _ Hb).
Qed.

(** X1.  What [send_data] sends, [receive_data] reads back: whenever
    [send_data] succeeds it has sent one datagram, and a peer running
    [receive_data] on that datagram gets the DATA opcode, the same block
    number and the first 512 bytes of the block (the whole block when it has
    at most 512 bytes), without raising or printing. *)
Theorem send_data_received
    (block_num : Z) (data_block : bytes) (address src : endpoint)
    (w w' w2 : world) (expected : Z) :
  send_data block_num data_block address w = (Ok tt, w') →
  ∃ message,
    sent w' = sent w ++ [(message, address)] ∧
    receive_data (Datagram message src) expected w2
    = (Ok (Some (OPCODE DATA, block_num, take 512 data_block, src)), w2) ∧
    ((length data_block ≤ 512)%nat → take 512 data_block = data_block).
Proof.
  intros Hsend. pose proof (send_data_Ok _ _ _ _ _ Hsend) as Hb.
  rewrite send_data_ok in Hsend by done. injection Hsend as <-.
  exists (DATA_msg block_num data_block). split; [done|]. split.
  - by rewrite (receive_data_headed _ _ _ _ _ _ (header_DATA_msg _ _ Hb)).
  - intros Hlen. by apply firstn_all2.
Qed.

Lemma send_data_received_witness :
  ∃ message,
    sent (send_data 7 (Bs 3) tid w0).2 = sent w0 ++ [(message, tid)] ∧
    receive_data (Datagram message stranger) 1 w0
    = (Ok (Some (OPCODE DATA, 7, take 512 (Bs 3), stranger)), w0).
Proof.
  destruct (send_data_received 7 (Bs 3) tid stranger w0
              (send_data 7 (Bs 3) tid w0).2 w0 1 eq_refl)
    as (message & Hsent & Hrecv & _).
  exists message. split; [exact Hsent | exact Hrecv].
Defined.

(** ** [receive_data] and [send_request] at their edges *)

Lemma header_ranges data op b :
  header data = Some (op, b) →
  -32768 ≤ op ≤ 32767 ∧ -32768 ≤ b ≤ 32767.
Proof.
  unfold header, unpack_hh. intros H.
  destruct (take 4 data) as [|a1 [|a0 [|b1 [|b0 [|? ?]]]]]; try done.
  injection H as <- <-. split; apply unpack_h_range.
Qed.

(** X2.  [receive_data] on a datagram: with fewer than four bytes it raises
    [struct.error]; otherwise it returns, without printing, two header
    fields that are signed 16-bit values, the source of the datagram, and as
    payload the bytes after the header up to the 516th byte of the datagram,
    so never more than 512 bytes. *)
Theorem receive_data_datagram
    (data : bytes) (src : endpoint) (expected : Z) (w : world) :
  ((length data < 4)%nat →
   receive_data (Datagram data src) expected w = (Raise struct_error, w))
  ∧ ((4 ≤ length data)%nat →
     ∃ op b,
       receive_data (Datagram data src) expected w
       = (Ok (Some (op, b, drop 4 (take 516 data), src)), w) ∧
       -32768 ≤ op ≤ 32767 ∧ -32768 ≤ b ≤ 32767 ∧
       length (drop 4 (take 516 data))
       = (Nat.min (length data) 516 - 4)%nat).
Proof.
  split.
  - intros Hlen. apply receive_data_headless.
    destruct (header data) eqn:Hh; [|done].
    assert (4 ≤ length data)%nat by (apply header_length; eauto). lia.
  - intros Hlen. apply header_length in Hlen as [[op b] Hh].
    exists op, b. split; [by apply receive_data_headed|].
    destruct (header_ranges _ _ _ Hh). repeat split; try lia.
    rewrite length_drop, length_take. lia.
Qed.

Lemma receive_data_datagram_witness :
  (4 ≤ length (DATA_msg 1 (As 600)))%nat ∧
  ∃ op b,
    receive_data (Datagram (DATA_msg 1 (As 600)) tid) 1 w0
    = (Ok (Some (op, b, drop 4 (take 516 (DATA_msg 1 (As 600))), tid)), w0).
Proof.
  assert (Hlen : (4 ≤ length (DATA_msg 1 (As 600)))%nat) by (vm_compute; lia).
  split; [exact Hlen|].
  destruct (proj2 (receive_data_datagram (DATA_msg 1 (As 600)) tid 1 w0) Hlen)
    as (op & b & Hrecv & _).
  by exists op, b.
Defined.

(** X3.  [receive_data] never lets [socket.timeout] out: on a timeout it
    prints the notice and returns the tuple of [None]s.  So the handler for
    [socket.timeout] in [upload_file] never runs: every line an upload loop
    prints is the timeout notice of [receive_data] or the completion line,
    never the retransmission notice. *)
Theorem upload_timeout_handler_dead
    (server_address : endpoint) (inbox : list event) (file : bytes)
    (n : Z) (w : world) (ev : event) :
  (receive_data ev n w).1 ≠ Raise socket_timeout
  ∧ ∃ lines,
      stdout (upload_loop server_address inbox file n w).2
      = stdout w ++ lines ∧
      Forall (λ l, l = timeout_notice ∨ l = upload_done) lines ∧
      ∀ b, retransmit_notice b ∉ lines.
Proof.
  split.
  { destruct ev as [|data src]; [done|].
    destruct (header data) as [[op b]|] eqn:Hh.
    - by rewrite (receive_data_headed _ _ _ _ _ _ Hh).
    - by rewrite (receive_data_headless _ _ _ _ Hh). }
  assert (Hlines : ∃ lines,
    stdout (upload_loop server_address inbox file n w).2 = stdout w ++ lines ∧
    Forall (λ l, l = timeout_notice ∨ l = upload_done) lines).
  { revert file n w. induction inbox as [|ev' inbox IH]; intros file n w;
      cbn [upload_loop];
      destruct (send_data_cases n (take (Z.to_nat BLOCK_SIZE) file)
                  server_address w) as [Hs|Hs]; rewrite Hs;
      try (exists []; by rewrite app_nil_r).
    destruct ev' as [|data src].
    - rewrite upload_reply_timeout.
      destruct (IH (drop (Z.to_nat BLOCK_SIZE) file) n
                  (World (sent w ++ [(DATA_msg n (take (Z.to_nat BLOCK_SIZE) file),
                                      server_address)])
                     (stdout w ++ [timeout_notice]) (fs w)))
        as (lines & Hout & Hall).
      exists (timeout_notice :: lines). simpl in *.
      rewrite Hout, <- app_assoc. split; [done|]. constructor; [by left|done].
    - destruct (header data) as [[op b]|] eqn:Hh.
      + rewrite (upload_reply_headed _ _ _ _ _ _ _ Hh).
        repeat case_decide.
        * exists [upload_done]. split; [done|].
          constructor; [by right | constructor].
        * edestruct IH as (lines & Hout & Hall).
          exists lines. split; [exact Hout | exact Hall].
        * edestruct IH as (lines & Hout & Hall).
          exists lines. split; [exact Hout | exact Hall].
      + rewrite (upload_reply_headless _ _ _ _ _ Hh).
        exists []. by rewrite app_nil_r. }
  destruct Hlines as (lines & Hout & Hall).
  exists lines. split; [done|]. split; [done|].
  intros b Hin. rewrite Forall_forall in Hall.
  destruct (Hall _ Hin) as [H|H]; by vm_compute in H.
Qed.



(** ** Uploads *)

Lemma chunks_concat k : ∀ file : bytes,
  (512 * k ≤ length file < 512 * S k)%nat →
  concat (chunks (S k) file) = file.
Proof.
  induction k as [|k IH]; intros file Hlen.
  - simpl. rewrite app_nil_r. apply firstn_all2. lia.
  - change (chunks (S (S k)) file)
      with (take 512 file :: chunks (S k) (drop 512 file)).
    rewrite concat_cons, IH; [apply take_drop|].
    rewrite length_drop. lia.
Qed.

(** An upload whose every block is acknowledged in turn. *)
Lemma upload_loop_in_step server_address k : ∀ acks rest file n w,
  (512 * k ≤ length file < 512 * S k)%nat →
  length acks = S k →
  consecutive_acks n acks →
  -32768 ≤ n → n + Z.of_nat k ≤ 32767 →
  upload_loop server_address (acks ++ rest) file n w
  = (Completed, n + Z.of_nat k + 1,
     World (sent w ++ numbered n (chunks (S k) file) server_address)
       (stdout w ++ [upload_done]) (fs w)).
Proof.
  induction k as [|k IH]; intros acks rest file n w Hlen Hacks Hcons Hlo Hhi;
    destruct acks as [|[|data src] acks]; try done;
    destruct Hcons as [Hh Hcons]; rewrite <- app_comm_cons;
    rewrite upload_loop_cons by lia; cbv zeta; rewrite Hh;
    rewrite decide_True by done.
  - rewrite decide_True by (rewrite length_take; unfold BLOCK_SIZE; lia).
    simpl. by rewrite Z.add_0_r.
  - rewrite decide_False by (rewrite length_take; unfold BLOCK_SIZE; lia).
    rewrite (IH acks rest); try done.
    + simpl. rewrite <- app_assoc. simpl. do 2 f_equal. lia.
    + rewrite length_drop. lia.
    + simpl in Hacks. lia.
    + lia.
    + lia.
Qed.

(** X5.  An upload that goes well.  The file has [k] full chunks of 512
    bytes and a shorter last one (empty when the size is a multiple of 512),
    with at most 32767 chunks in all, and the replies are the
    acknowledgements of blocks 1, 2, ..., [k + 1] in turn.  Then the upload
    completes after them: it has sent the request and the chunks as DATA
    blocks 1 to [k + 1], in order, to the server address; the chunks put
    together are the file; the completion line is printed; no file is
    changed; and what arrives afterwards is not received. *)
Theorem upload_in_step
    (filename : string) (server_address : endpoint) (content : bytes)
    (acks rest : list event) (w : world) (k : nat) :
  fs w !! filename = Some content →
  (512 * k ≤ length content < 512 * S k)%nat →
  length acks = S k →
  consecutive_acks 1 acks →
  Z.of_nat k < 32767 →
  upload_file filename server_address (acks ++ rest) w
  = (Completed,
     World (sent w ++ (request_msg 2 filename, server_address)
                      :: numbered 1 (chunks (S k) content) server_address)
       (stdout w ++ [upload_done]) (fs w))
  ∧ concat (chunks (S k) content) = content.
Proof.
  intros Hfile Hlen Hacks Hcons Hk. split; [|by apply chunks_concat].
  unfold upload_file. rewrite Hfile, send_request_ok by (simpl; lia).
  rewrite (upload_loop_in_step _ k) by (done || lia). simpl.
  by rewrite <- app_assoc.
Qed.

Lemma upload_in_step_witness :
  let content := As 512 ++ Bs 88 in
  let acks := [Datagram (ACK_msg 1) tid; Datagram (ACK_msg 2) tid] in
  fs (holding "f" content) !! "f"%string = Some content ∧
  (512 * 1 ≤ length content < 512 * 2)%nat ∧
  consecutive_acks 1 acks ∧
  upload_file "f" server (acks ++ [Timeout]) (holding "f" content)
  = (Completed,
     World ([] ++ (request_msg 2 "f", server)
                  :: numbered 1 (chunks 2 content) server)
       ([] ++ [upload_done]) (fs (holding "f" content))).
Proof.
  intros content acks.
  assert (Hfile : fs (holding "f" content) !! "f"%string = Some content)
    by reflexivity.
  assert (Hlen : (512 * 1 ≤ length content < 512 * 2)%nat)
    by (vm_compute; lia).
  assert (Hcons : consecutive_acks 1 acks) by (by vm_compute).
  split; [exact Hfile|]. split; [exact Hlen|]. split; [exact Hcons|].
  apply (upload_in_step "f" server content acks [Timeout]
           (holding "f" content) 1 Hfile Hlen eq_refl Hcons). lia.
Defined.

(** What an upload loop leaves alone, and what it can send. *)
Lemma upload_loop_keeps server_address inbox : ∀ file n w st n' w',
  upload_loop server_address inbox file n w = (st, n', w') →
  1 ≤ n →
  fs w' = fs w ∧
  (∀ e, st = Raised e → e = struct_error) ∧
  ∃ new, sent w' = sent w ++ new ∧
    Forall (λ m, ∃ b d, m = (DATA_msg b d, server_address)
                        ∧ n ≤ b ≤ 32767 ∧ (length d ≤ 512)%nat) new.
Proof.
  induction inbox as [|ev inbox IH]; intros file n w st n' w' Hrun Hn;
    cbn [upload_loop] in Hrun;
    change (Z.to_nat BLOCK_SIZE) with 512%nat in Hrun;
    destruct (send_data_cases n (take 512 file) server_address w) as [Hs|Hs];
    pose proof Hs as Hs'; rewrite Hs in Hrun.
  1,3: injection Hrun as <- <- <-; split; [done|]; split;
       [by intros e [= <-] | exists []; by rewrite app_nil_r].
  all: apply send_data_Ok in Hs';
    assert (Hmsg : ∃ b d,
      (DATA_msg n (take 512 file), server_address)
      = (DATA_msg b d, server_address) ∧ n ≤ b ≤ 32767 ∧ (length d ≤ 512)%nat)
      by (eexists _, _; split; [done|]; split; [lia|];
          rewrite length_take; lia).
  - injection Hrun as <- <- <-. split; [done|]. split; [done|].
    eexists [_]. split; [done|]. by constructor.
  - destruct (upload_reply _ _ _ _) as [r w2] eqn:Hr.
    pose proof (upload_reply_quiet _ _ _ _ _ _ Hr) as [Hsent Hfs].
    simpl in Hsent, Hfs.
    destruct r as [[m|m|m]|e].
    + assert (Hm : n ≤ m).
      { destruct ev as [|data src].
        - rewrite upload_reply_timeout in Hr. injection Hr as Hm _. lia.
        - destruct (header data) as [[op b]|] eqn:Hh.
          + rewrite (upload_reply_headed _ _ _ _ _ _ _ Hh) in Hr.
            repeat case_decide; try done; injection Hr as Hm _; lia.
          + by rewrite (upload_reply_headless _ _ _ _ _ Hh) in Hr. }
      destruct (IH _ _ _ _ _ _ Hrun) as (Hfs' & Hexn & new & Hnew & Hall);
        [lia|].
      split; [congruence|]. split; [done|].
      eexists (_ :: new). rewrite Hnew, Hsent, <- app_assoc.
      split; [done|]. constructor; [done|].
      eapply Forall_impl; [exact Hall|].
      intros x (b & d & -> & Hb & Hd). eexists _, _. split; [done|]. lia.
    + injection Hrun as <- <- <-. split; [done|]. split; [done|].
      eexists [_]. rewrite Hsent. split; [done|]. by constructor.
    + injection Hrun as <- <- <-. split; [done|]. split; [done|].
      eexists [_]. rewrite Hsent. split; [done|]. by constructor.
    + injection Hrun as <- <- <-. split; [done|].
      assert (e = struct_error) as ->.
      { destruct ev as [|data src]; [done|].
        destruct (header data) as [[op b]|] eqn:Hh.
        - rewrite (upload_reply_headed _ _ _ _ _ _ _ Hh) in Hr.
          by repeat case_decide.
        - rewrite (upload_reply_headless _ _ _ _ _ Hh) in Hr. congruence. }
      split; [by intros e [= <-]|].
      eexists [_]. rewrite Hsent. split; [done|]. by constructor.
Qed.

(** X6.  [upload_file] leaves with [sys.exit(1)] exactly when the file does
    not exist, and then it has sent nothing and printed one line naming the
    file.  Whatever happens, an upload changes no file. *)
Theorem upload_missing_file
    (filename : string) (server_address : endpoint) (inbox : list event)
    (w : world) (st : status) (w' : world) :
  upload_file filename server_address inbox w = (st, w') →
  fs w' = fs w
  ∧ (st = Raised (SystemExit 1) ↔ fs w !! filename = None)
  ∧ (fs w !! filename = None →
     sent w' = sent w ∧
     stdout w' = stdout w ++ ["파일 " +:+ filename +:+ "이(가) 존재하지 않습니다."]).
Proof.
  unfold upload_file. destruct (fs w !! filename) as [content|] eqn:Hfile.
  - rewrite send_request_ok by (simpl; lia).
    destruct (upload_loop _ _ _ _ _) as [[st1 n1] w1] eqn:Hrun.
    intros [= <- <-].
    destruct (upload_loop_keeps _ _ _ _ _ _ _ _ Hrun) as (Hfs & Hexn & _);
      [lia|].
    split; [done|]. split; [|done].
    split; [|done]. intros Hst. by apply Hexn in Hst.
  - by intros [= <- <-].
Qed.

Lemma upload_missing_file_witness :
  let r := upload_file "g" server [Timeout] (holding "f" (Bs 3)) in
  fs r.2 = fs (holding "f" (Bs 3)) ∧
  (r.1 = Raised (SystemExit 1) ↔ fs (holding "f" (Bs 3)) !! "g"%string = None).
Proof.
  intros r.
  destruct (upload_missing_file "g" server [Timeout] (holding "f" (Bs 3))
              r.1 r.2 (surjective_pairing _)) as (Hfs & Hiff & _).
  split; [exact Hfs | exact Hiff].
Defined.

(** X7.  Whatever an upload receives, what it sends is the request and
    then only DATA messages, all to the server address it was given, with
    block numbers from 1 to 32767 and at most 512 bytes of payload each. *)
Theorem upload_sends_data_blocks
    (filename : string) (server_address : endpoint) (inbox : list event)
    (w : world) (st : status) (w' : world) :
  upload_file filename server_address inbox w = (st, w') →
  is_Some (fs w !! filename) →
  ∃ new,
    sent w' = sent w ++ (request_msg 2 filename, server_address) :: new ∧
    Forall (λ m, ∃ b d, m = (DATA_msg b d, server_address)
                        ∧ 1 ≤ b ≤ 32767 ∧ (length d ≤ 512)%nat) new.
Proof.
  unfold upload_file. intros Hrun [content Hfile]. rewrite Hfile in Hrun.
  rewrite send_request_ok in Hrun by (simpl; lia).
  destruct (upload_loop _ _ _ _ _) as [[st1 n1] w1] eqn:Hloop.
  injection Hrun as <- <-.
  destruct (upload_loop_keeps _ _ _ _ _ _ _ _ Hloop)
    as (_ & _ & new & Hnew & Hall); [lia|].
  exists new. simpl in Hnew. by rewrite Hnew, <- app_assoc.
Qed.

Lemma upload_sends_data_blocks_witness :
  let r := upload_file "f" server [Timeout; Datagram (ACK_msg 1) tid]
             (holding "f" (As 600)) in
  is_Some (fs (holding "f" (As 600)) !! "f"%string) ∧
  ∃ new,
    sent r.2 = [] ++ (request_msg 2 "f", server) :: new ∧
    Forall (λ m, ∃ b d, m = (DATA_msg b d, server)
                        ∧ 1 ≤ b ≤ 32767 ∧ (length d ≤ 512)%nat) new.
Proof.
  intros r.
  assert (Hfile : is_Some (fs (holding "f" (As 600)) !! "f"%string))
    by (by eexists).
  split; [exact Hfile|].
  exact (upload_sends_data_blocks "f" server _ (holding "f" (As 600))
           r.1 r.2 (surjective_pairing _) Hfile).
Defined.

(** ** Downloads *)

Lemma download_loop_frame filename inbox : ∀ n w,
  is_Some (fs w !! filename) →
  ∀ other, other ≠ filename →
    fs (download_loop filename inbox n w).2 !! other = fs w !! other.
Proof.
  induction inbox as [|ev inbox IH]; intros n w Hfile other Hother; [done|].
  rewrite download_loop_cons by done.
  destruct ev as [|data src]; [by rewrite IH|].
  destruct (header data) as [[op b]|]; [|done].
  repeat case_decide; simpl.
  - by rewrite lookup_alter_ne.
  - rewrite IH; simpl; [by rewrite lookup_alter_ne | | done].
    rewrite lookup_alter_eq. destruct Hfile as [c ->]. by eexists.
  - by rewrite lookup_delete_ne.
  - by rewrite IH.
Qed.

(** X8.  The only file a download touches is its destination, and after
    the download that file is missing exactly when the download was ended by
    an ERROR message: a download that completes, that is still waiting, or
    that was stopped by [struct.error] leaves the file in place. *)
Theorem download_destination_only
    (filename : string) (server_address : endpoint) (inbox : list event)
    (w : world) (st : status) (w' : world) :
  download_file filename server_address inbox w = (st, w') →
  (fs w' !! filename = None ↔ st = Aborted)
  ∧ ∀ other, other ≠ filename → fs w' !! other = fs w !! other.
Proof.
  rewrite download_file_started.
  destruct (download_loop _ _ _ _) as [[st1 n1] w1] eqn:Hrun.
  intros [= <- <-]. split.
  - destruct (download_loop_trace _ _ _ _ _ _ _ _ Hrun (started_file _ _ _))
      as (acc & _ & _ & _ & Hkeep & Hgone & _).
    split; [|done]. intros Hnone.
    destruct (decide (st1 = Aborted)) as [|Hst]; [done|].
    by rewrite (Hkeep Hst) in Hnone.
  - intros other Hother.
    pose proof (download_loop_frame filename inbox 1
                  (started filename server_address w)) as Hframe.
    rewrite Hrun in Hframe. simpl in Hframe.
    rewrite Hframe; [by apply lookup_insert_ne | | done].
    rewrite lookup_insert_eq. by eexists.
Qed.

Lemma download_destination_only_witness :
  let r := download_file "f" server [Datagram (ERROR_msg 3 "full") tid]
             (holding "g" (Bs 3)) in
  (fs r.2 !! "f"%string = None ↔ r.1 = Aborted) ∧
  fs r.2 !! "g"%string = fs (holding "g" (Bs 3)) !! "g"%string.
Proof.
  intros r.
  destruct (download_destination_only "f" server _ (holding "g" (Bs 3))
              r.1 r.2 (surjective_pairing _)) as [Hiff Hframe].
  split; [exact Hiff|]. by apply Hframe.
Defined.

Lemma consecutive_data_bound acc : ∀ n,
  consecutive_data n acc → acc ≠ [] → n + Z.of_nat (length acc) ≤ 32768.
Proof.
  induction acc as [|[|data src] acc IH]; intros n Hcons Hne; try done.
  destruct Hcons as [Hh Hcons]. apply header_range in Hh.
  destruct acc as [|ev acc]; [simpl; lia|].
  specialize (IH _ Hcons ltac:(done)). cbn [length] in *. lia.
Qed.

Lemma written_length acc :
  Z.of_nat (length (written acc)) ≤ 512 * Z.of_nat (length acc).
Proof.
  unfold written. induction acc as [|ev acc IH]; [done|].
  rewrite fmap_cons, concat_cons, length_app, length_cons.
  assert (length (payload_of ev) ≤ 512)%nat.
  { destruct ev; [simpl; lia | apply payload_length]. }
  lia.
Qed.

(** X9.  A download never accepts a block numbered above 32767, so the file
    it leaves never holds more than 32767 blocks of 512 bytes, whatever
    arrives. *)
Theorem download_size_bound
    (filename : string) (server_address : endpoint) (inbox : list event)
    (w : world) (st : status) (w' : world) (content : bytes) :
  download_file filename server_address inbox w = (st, w') →
  fs w' !! filename = Some content →
  Z.of_nat (length content) ≤ 512 * 32767.
Proof.
  rewrite download_file_started.
  destruct (download_loop _ _ _ _) as [[st1 n1] w1] eqn:Hrun.
  intros [= <- <-] Hfile.
  destruct (download_loop_trace _ _ _ _ _ _ _ _ Hrun (started_file _ _ _))
    as (acc & _ & Hcons & _ & Hkeep & Hgone & _).
  destruct (decide (st1 = Aborted)) as [Hst|Hst].
  { by rewrite (Hgone Hst) in Hfile. }
  rewrite (Hkeep Hst) in Hfile. injection Hfile as <-.
  pose proof (written_length acc) as Hw.
  assert (Hacc : Z.of_nat (length acc) ≤ 32767).
  { destruct acc as [|ev acc]; [simpl; lia|].
    pose proof (consecutive_data_bound _ _ Hcons ltac:(done)). lia. }
  lia.
Qed.

Lemma download_size_bound_witness :
  let r := download_file "f" server [Datagram (DATA_msg 1 (Bs 3)) tid] w0 in
  fs r.2 !! "f"%string = Some (Bs 3) ∧
  Z.of_nat (length (Bs 3)) ≤ 512 * 32767.
Proof.
  intros r.
  assert (Hfile : fs r.2 !! "f"%string = Some (Bs 3)) by reflexivity.
  split; [exact Hfile|].
  exact (download_size_bound "f" server _ w0 r.1 r.2 (Bs 3)
           (surjective_pairing _) Hfile).
Defined.

(** X10.  Once a download has stopped (completed, ended by an ERROR
    message, or stopped by an exception), nothing that arrives later is
    received: the outcome is the same with any further events behind. *)
Theorem download_stops_receiving
    (filename : string) (server_address : endpoint) (pre rest : list event)
    (w : world) (st : status) (w' : world) :
  download_file filename server_address pre w = (st, w') →
  st ≠ Waiting →
  download_file filename server_address (pre ++ rest) w = (st, w').
Proof.
  rewrite !download_file_started, download_loop_app.
  destruct (download_loop _ pre _ _) as [[st1 n1] w1].
  intros [= <- <-] Hst. by destruct st1.
Qed.

Lemma download_stops_receiving_witness :
  let pre := [Datagram (DATA_msg 1 (Bs 3)) tid] in
  let r := download_file "f" server pre w0 in
  r.1 ≠ Waiting ∧
  download_file "f" server (pre ++ [Datagram (ERROR_msg 1 "late") stranger]) w0
  = (r.1, r.2).
Proof.
  intros pre r.
  assert (Hst : r.1 ≠ Waiting) by (by vm_compute).
  split; [exact Hst|].
  exact (download_stops_receiving "f" server pre _ w0 r.1 r.2
           (surjective_pairing _) Hst).
Defined.

Lemma download_loop_in_step filename src address k : ∀ content rest n w c0,
  fs w !! filename = Some c0 →
  (512 * k ≤ length content < 512 * S k)%nat →
  -32768 ≤ n → n + Z.of_nat k ≤ 32767 →
  ∃ w',
    download_loop filename
      (arriving src (numbered n (chunks (S k) content) address) ++ rest) n w
    = (Completed, n + Z.of_nat k + 1, w') ∧
    fs w' !! filename = Some (c0 ++ content) ∧
    sent w' = sent w ++ acks_from n
                (arriving src (numbered n (chunks (S k) content) address)) ∧
    stdout w' = stdout w ++ [download_done].
Proof.
  induction k as [|k IH]; intros content rest n w c0 Hfile Hlen Hlo Hhi;
    change (chunks (S ?j) content)
      with (take 512 content :: chunks j (drop 512 content));
    cbn [numbered arriving fmap list_fmap fst acks_from];
    rewrite <- app_comm_cons, download_loop_cons by eauto;
    rewrite header_DATA_msg by lia; rewrite decide_True by done;
    cbv zeta; rewrite payload_DATA_msg, take_take, Nat.min_id.
  - rewrite decide_True by (rewrite length_take; unfold BLOCK_SIZE; lia).
    eexists. split; [by rewrite Z.add_0_r|]. simpl.
    rewrite lookup_alter_eq, Hfile. simpl.
    by rewrite firstn_all2 by lia.
  - rewrite decide_False by (rewrite length_take; unfold BLOCK_SIZE; lia).
    edestruct (IH (drop 512 content) rest (n + 1)) as (w' & Hrun & Hf & Hs & Ho);
      [| | | |rewrite Hrun].
    + simpl. by rewrite lookup_alter_eq, Hfile.
    + rewrite length_drop. lia.
    + lia.
    + lia.
    + eexists. split; [do 2 f_equal; lia|].
      split; [by rewrite Hf, <- app_assoc, take_drop|].
      split; [|done]. rewrite Hs. simpl. by rewrite <- app_assoc.
Qed.

(** X11.  A download that goes well.  The server sends a content of [k]
    full chunks and a shorter last one as DATA blocks 1 to [k + 1], in
    order, as an upload of that content numbers them, with at most 32767
    blocks.  Then the download completes after them, the destination file
    holds exactly the content, each block is acknowledged once, in order, to
    the endpoint it came from, and the completion line is printed. *)
Theorem download_in_step
    (filename : string) (server_address src address : endpoint)
    (content : bytes) (rest : list event) (w : world) (k : nat) :
  (512 * k ≤ length content < 512 * S k)%nat →
  Z.of_nat k < 32767 →
  let blocks := arriving src (numbered 1 (chunks (S k) content) address) in
  ∃ w',
    download_file filename server_address (blocks ++ rest) w
    = (Completed, w') ∧
    fs w' !! filename = Some content ∧
    sent w' = sent w ++ (request_msg 1 filename, server_address)
                         :: acks_from 1 blocks ∧
    stdout w' = stdout w ++ [download_done].
Proof.
  intros Hlen Hk blocks. rewrite download_file_started.
  destruct (download_loop_in_step filename src address k content rest 1
              (started filename server_address w) [] (started_file _ _ _)
              Hlen) as (w' & Hrun & Hfile & Hsent & Hout); [lia | lia |].
  fold blocks in Hrun, Hsent. rewrite Hrun.
  exists w'. split; [done|]. split; [done|]. split; [|done].
  rewrite Hsent. simpl. by rewrite <- app_assoc.
Qed.

Lemma download_in_step_witness :
  let content := As 512 ++ Bs 88 in
  let blocks := arriving tid (numbered 1 (chunks 2 content) server) in
  (512 * 1 ≤ length content < 512 * 2)%nat ∧
  ∃ w',
    download_file "f" server (blocks ++ [Timeout]) w0 = (Completed, w') ∧
    fs w' !! "f"%string = Some content.
Proof.
  intros content blocks.
  assert (Hlen : (512 * 1 ≤ length content < 512 * 2)%nat)
    by (vm_compute; lia).
  split; [exact Hlen|].
  destruct (download_in_step "f" server tid server content [Timeout] w0 1
              Hlen) as (w' & Hrun & Hfile & _); [lia|].
  exists w'. split; [exact Hrun | exact Hfile].
Defined.
